(** * Ad generation workflow of [src/index.tsx]

    A shallow embedding of the [App] component's logic: the [PLATFORMS]
    table, the prompt template of [generateAd], the pre-flight guards, the
    scan of the service reply, the React state the handlers write, and the
    download file name of the result region.

    Strings are Rocq [string]s; a character stands for one code unit in the
    range U+0000..U+00FF.  The download file name is modelled a second time
    on strings of arbitrary UTF-16 code units ([js_string]), with the
    built-in [toLowerCase] as a parameter.  React state is a record, the
    handlers are programs
    of a small state/trace/exception monad, and the two asynchronous
    collaborators (the [FileReader] and the generative service) are an
    environment record passed to the handler. *)

From Stdlib Require Import String Ascii List Bool Arith NArith Lia.
Import ListNotations.
Open Scope string_scope.

(** ** Strings *)

(** The characters that cannot be written inside a literal here. *)
Definition dquote : string := String (ascii_of_nat 34) EmptyString.
Definition nl : string := String (ascii_of_nat 10) EmptyString.

(** [`${x}`] of a value that may be [undefined]. *)
Definition template_of (x : option string) : string :=
  match x with
  | Some v => v
  | None => "undefined"
  end.

(** JavaScript truthiness of a string: everything but the empty string. *)
Definition truthy (s : string) : bool :=
  match s with
  | EmptyString => false
  | String _ _ => true
  end.

(** Truthiness of [string | null]. *)
Definition truthy_opt (s : option string) : bool :=
  match s with
  | Some v => truthy v
  | None => false
  end.

(** [a || b] on strings where [a] may be [undefined]. *)
Definition or_else (a : option string) (b : string) : string :=
  match a with
  | Some v => if truthy v then v else b
  | None => b
  end.

(** [needle] occurs verbatim inside [hay]. *)
Definition occurs_in (needle hay : string) : Prop :=
  exists before after, hay = before ++ needle ++ after.

(** [s] ends with [suffix]. *)
Definition ends_with (suffix s : string) : Prop :=
  exists before, s = before ++ suffix.

(** ** Platform presets (lines 6-10) *)

Record Platform := mkPlatform {
  id : string;
  name : string;
  ratio : string;
  icon : string
}.

Definition PLATFORMS : list Platform :=
  [ mkPlatform "story" "Instagram/Facebook Story" "9:16" "fa-instagram";
    mkPlatform "feed" "Social Media Feed" "1:1" "fa-square-share-nodes";
    mkPlatform "landscape" "Google Display / Web" "16:9" "fa-google" ].

(** [PLATFORMS[0]], the initial selection. *)
Definition PLATFORMS_0 : Platform :=
  mkPlatform "story" "Instagram/Facebook Story" "9:16" "fa-instagram".

(** ** The prompt template (lines 73-86) *)

(** Every line of the template literal after the first starts with the six
    blanks of the source indentation. *)
Definition indent : string := "      ".

Definition DEFAULT_VIBE : string :=
  "The vibe should be serene, professional, and inspiring, suitable for a high-quality journal or planner.".

(** The inner conditional of line 79. *)
Definition vibe_segment (description : string) : string :=
  if truthy description
  then "The ad should convey this message/vibe: " ++ description ++ "."
  else DEFAULT_VIBE.

(** The literal pieces of the template around the interpolations of
    [platform.name] (line 73), [title] (line 76) and line 79. *)
Definition prompt_intro : string :=
  "Create a stunning, high-quality static advertisement image optimized for ".

Definition prompt_subject : string :=
  ". " ++ nl
    ++ indent ++ nl
    ++ indent ++ "Subject:" ++ nl
    ++ indent ++ "The centerpiece is the provided book cover for a book titled "
    ++ dquote.

Definition prompt_context : string :=
  dquote ++ "." ++ nl
    ++ indent ++ nl
    ++ indent ++ "Context & Vibe:" ++ nl
    ++ indent.

(** The template up to the interpolation of line 79. *)
Definition prompt_head (platform : Platform) (title : string) : string :=
  prompt_intro ++ name platform ++ prompt_subject ++ title ++ prompt_context.

(** The fixed block of directives after it (lines 80-86). *)
Definition prompt_tail : string :=
  nl
    ++ indent ++ nl
    ++ indent ++ "Composition:" ++ nl
    ++ indent ++ "- Place the book naturally in a lifestyle setting (e.g., on a minimalist wooden desk with coffee, in a cozy reading nook, or held by a person in a soft-focus background)." ++ nl
    ++ indent ++ "- The lighting should be soft, golden-hour, or studio quality." ++ nl
    ++ indent ++ "- Make it look like a premium social media ad for the brand 'Innerflue'." ++ nl
    ++ indent ++ "- Do not add text overlays, just the visual photography." ++ nl
    ++ indent ++ "- Ensure the book cover provided is clearly visible and integrated realistically (lighting, shadows, perspective).".

Definition prompt (platform : Platform) (title description : string) : string :=
  prompt_head platform title ++ vibe_segment description ++ prompt_tail.

(** ** The download file name (line 308) *)

Definition code (c : ascii) : nat := nat_of_ascii c.

(** The class [\s] of ECMAScript regular expressions, restricted to code
    units below U+0100: TAB, LF, VT, FF, CR, SPACE and NBSP. *)
Definition is_space (c : ascii) : bool :=
  let n := code c in
  ((9 <=? n) && (n <=? 13) || (n =? 32) || (n =? 160))%nat.

(** Characters that [toLowerCase] changes: A-Z, and U+00C0..U+00DE except
    the multiplication sign U+00D7. *)
Definition is_upper (c : ascii) : bool :=
  let n := code c in
  ((65 <=? n) && (n <=? 90)
   || (192 <=? n) && (n <=? 222) && negb (n =? 215))%nat.

Definition lower_char (c : ascii) : ascii :=
  if is_upper c then ascii_of_nat (code c + 32) else c.

Fixpoint toLowerCase (s : string) : string :=
  match s with
  | EmptyString => EmptyString
  | String c r => String (lower_char c) (toLowerCase r)
  end.

(** [s.replace(/\s+/g, '-')]: scanning left to right, a maximal run of
    white space is one match and becomes one hyphen.  [in_run] tells that
    the previous character belonged to the match being consumed. *)
Fixpoint replace_spaces_from (in_run : bool) (s : string) : string :=
  match s with
  | EmptyString => EmptyString
  | String c r =>
      if is_space c
      then (if in_run then replace_spaces_from true r
            else String "-" (replace_spaces_from true r))
      else String c (replace_spaces_from false r)
  end.

Definition replace_spaces (s : string) : string := replace_spaces_from false s.

(** The part of the name computed from the title. *)
Definition download_stem (title : string) : string :=
  toLowerCase (replace_spaces title).

Definition download_name (title : string) : string :=
  "innerflue-ad-" ++ download_stem title ++ ".png".

Definition starts_with_space (s : string) : bool :=
  match s with
  | EmptyString => false
  | String c _ => is_space c
  end.

(** Neither white space nor a character that [toLowerCase] changes. *)
Definition plain_char (c : ascii) : bool :=
  negb (is_space c) && negb (is_upper c).

Fixpoint all_chars (p : ascii -> bool) (s : string) : bool :=
  match s with
  | EmptyString => true
  | String c r => p c && all_chars p r
  end.

(** The file name as the specification words it: every character of the
    title that is not white space is lower-cased, and each maximal run of
    white space is replaced by a hyphen. *)
Inductive Hyphenated : string -> string -> Prop :=
| Hyph_end : Hyphenated EmptyString EmptyString
| Hyph_char c t s :
    is_space c = false ->
    Hyphenated t s ->
    Hyphenated (String c t) (String (lower_char c) s)
| Hyph_run w t s :
    w <> EmptyString ->
    all_chars is_space w = true ->
    starts_with_space t = false ->
    Hyphenated t s ->
    Hyphenated (w ++ t) (String "-" s).

(** ** Files, requests and replies *)

Record File := mkFile {
  file_name : string;
  type : string
}.

Record Blob := mkBlob {
  data : option string;
  mimeType : option string
}.

(** A content part, of a request or of a reply: text, inline data, or
    neither. *)
Record Part := mkPart {
  text : option string;
  inlineData : option Blob
}.

Record GenerateContentParameters := mkParams {
  model : string;
  contents_parts : list Part;
  config_imageConfig_aspectRatio : string
}.

Record Content := mkContent { parts : option (list Part) }.
Record Candidate := mkCandidate { content : option Content }.
Record GenerateContentResponse := mkResponse {
  candidates : option (list Candidate)
}.

(** A thrown value; [message] is what the handler reads from it. *)
Record JsError := mkError { message : option string }.

Inductive NetOutcome :=
| Resolved (response : GenerateContentResponse)
| Rejected (err : JsError).

(** The asynchronous collaborators.  [readAsDataURL] gives [reader.result]
    at [loadend]: the data URL, or [None] when the read failed. *)
Record Env := mkEnv {
  readAsDataURL : File -> option string;
  generateContent : GenerateContentParameters -> NetOutcome
}.

(** [s.split(sep)] for a one-character separator. *)
Fixpoint split_on (sep : ascii) (s : string) : list string :=
  match s with
  | EmptyString => [EmptyString]
  | String c r =>
      if Ascii.eqb c sep then EmptyString :: split_on sep r
      else match split_on sep r with
           | h :: t => String c h :: t
           | [] => [String c EmptyString]
           end
  end.

(** [response.candidates?.[0]?.content?.parts] (line 105). *)
Definition response_parts (response : GenerateContentResponse)
  : option (list Part) :=
  match candidates response with
  | Some (c0 :: _) =>
      match content c0 with
      | Some ct => parts ct
      | None => None
      end
  | _ => None
  end.

(** ** React state of [App] (lines 13-21) *)

Record AppState := mkState {
  apiKey : string;
  title : string;
  description : string;
  platform : Platform;
  imageFile : option File;
  imagePreview : option string;
  generatedImage : option string;
  loading : bool;
  error : string
}.

(** The state of the first render; [env_API_KEY] is [process.env.API_KEY],
    or the empty string when that is not set. *)
Definition initial_state (env_API_KEY : string) : AppState :=
  mkState env_API_KEY EmptyString EmptyString PLATFORMS_0
          None None None false EmptyString.

(** What the handlers do besides writing state. *)
Inductive Effect :=
| FileRead (file : File)
| NetworkCall (params : GenerateContentParameters)
| ConsoleError (err : JsError).

Definition network_calls (tr : list Effect) : list GenerateContentParameters :=
  flat_map (fun e => match e with NetworkCall p => [p] | _ => [] end) tr.

(** The instruction texts that left with the network calls of a trace. *)
Definition prompts_sent (tr : list Effect) : list string :=
  flat_map (fun p =>
              flat_map (fun part => match text part with
                                    | Some t => [t]
                                    | None => []
                                    end)
                       (contents_parts p))
           (network_calls tr).

(** ** A monad for the handlers: state, trace of effects, exceptions *)

Inductive Completion (A : Type) :=
| Normal (a : A)
| Throw (err : JsError).
Arguments Normal {A} a.
Arguments Throw {A} err.

Definition M (A : Type) : Type :=
  AppState -> list Effect -> Completion A * AppState * list Effect.

Definition ret {A} (a : A) : M A := fun s tr => (Normal a, s, tr).

Definition bind {A B} (m : M A) (k : A -> M B) : M B :=
  fun s tr =>
    match m s tr with
    | (Normal a, s1, tr1) => k a s1 tr1
    | (Throw e, s1, tr1) => (Throw e, s1, tr1)
    end.

Definition throw {A} (e : JsError) : M A := fun s tr => (Throw e, s, tr).

Definition emit (e : Effect) : M unit := fun s tr => (Normal tt, s, (tr ++ [e])%list).

Definition update (f : AppState -> AppState) : M unit :=
  fun s tr => (Normal tt, f s, tr).

(** [try { body } catch (err) { handler err } finally { final }]. *)
Definition try_catch_finally {A} (body : M A) (handler : JsError -> M A)
    (final : M unit) : M A :=
  fun s tr =>
    let '(r1, s1, tr1) :=
      match body s tr with
      | (Normal a, s1, tr1) => (Normal a, s1, tr1)
      | (Throw e, s1, tr1) => handler e s1 tr1
      end in
    match final s1 tr1 with
    | (Normal _, s2, tr2) => (r1, s2, tr2)
    | (Throw e, s2, tr2) => (Throw e, s2, tr2)
    end.

Declare Scope handler_scope.
Delimit Scope handler_scope with handler.
Notation "x <- m ;; k" := (bind m (fun x => k))
  (at level 61, m at next level, right associativity) : handler_scope.
Notation "m ;; k" := (bind m (fun _ => k))
  (at level 61, right associativity) : handler_scope.

(** Functional record update, one per [useState] setter. *)
Definition with_title (v : string) (s : AppState) : AppState :=
  mkState (apiKey s) v (description s) (platform s)
    (imageFile s) (imagePreview s) (generatedImage s) (loading s) (error s).
Definition with_description (v : string) (s : AppState) : AppState :=
  mkState (apiKey s) (title s) v (platform s)
    (imageFile s) (imagePreview s) (generatedImage s) (loading s) (error s).
Definition with_platform (v : Platform) (s : AppState) : AppState :=
  mkState (apiKey s) (title s) (description s) v
    (imageFile s) (imagePreview s) (generatedImage s) (loading s) (error s).
Definition with_imageFile (v : option File) (s : AppState) : AppState :=
  mkState (apiKey s) (title s) (description s) (platform s) v
    (imagePreview s) (generatedImage s) (loading s) (error s).
Definition with_imagePreview (v : option string) (s : AppState) : AppState :=
  mkState (apiKey s) (title s) (description s) (platform s)
    (imageFile s) v (generatedImage s) (loading s) (error s).
Definition with_generatedImage (v : option string) (s : AppState) : AppState :=
  mkState (apiKey s) (title s) (description s) (platform s)
    (imageFile s) (imagePreview s) v (loading s) (error s).
Definition with_loading (v : bool) (s : AppState) : AppState :=
  mkState (apiKey s) (title s) (description s) (platform s)
    (imageFile s) (imagePreview s) (generatedImage s) v (error s).
Definition with_error (v : string) (s : AppState) : AppState :=
  mkState (apiKey s) (title s) (description s) (platform s)
    (imageFile s) (imagePreview s) (generatedImage s) (loading s) v.

(** The state setters. *)
Definition setTitle (v : string) : M unit := update (with_title v).
Definition setDescription (v : string) : M unit := update (with_description v).
Definition setPlatform (v : Platform) : M unit := update (with_platform v).
Definition setImageFile (v : option File) : M unit := update (with_imageFile v).
Definition setImagePreview (v : option string) : M unit := update (with_imagePreview v).
Definition setGeneratedImage (v : option string) : M unit := update (with_generatedImage v).
Definition setLoading (v : bool) : M unit := update (with_loading v).
Definition setError (v : string) : M unit := update (with_error v).

(** ** The handlers *)

Section Handlers.
Variable env : Env.
Local Open Scope handler_scope.

(** [handleImageUpload] (lines 25-35); [file] is [e.target.files?.[0]]. *)
Definition handleImageUpload (file : option File) : M unit :=
  match file with
  | Some f =>
      setImageFile (Some f) ;;
      emit (FileRead f) ;;
      setImagePreview (readAsDataURL env f)
  | None => ret tt
  end.

(** [fileToGenerativePart] (lines 37-52).  A failed read fires [error]
    before [loadend], so the promise is rejected with the reader's event,
    which has no [message]. *)
Definition fileToGenerativePart (file : File) : M Part :=
  emit (FileRead file) ;;
  match readAsDataURL env file with
  | Some result =>
      let base64String := nth_error (split_on "," result) 1 in
      ret (mkPart None (Some (mkBlob base64String (Some (type file)))))
  | None => throw (mkError None)
  end.

(** The argument of [ai.models.generateContent] (lines 88-101). *)
Definition request_of (imagePart : Part) (p : Platform) (prompt : string)
  : GenerateContentParameters :=
  mkParams "gemini-2.5-flash-image"
           [imagePart; mkPart (Some prompt) None]
           (ratio p).

Definition call_generateContent (params : GenerateContentParameters)
  : M GenerateContentResponse :=
  emit (NetworkCall params) ;;
  match generateContent env params with
  | Resolved response => ret response
  | Rejected err => throw err
  end.

(** The loop of lines 106-113; the result is [foundImage]. *)
Fixpoint scan_parts (ps : list Part) : M bool :=
  match ps with
  | [] => ret false
  | part :: rest =>
      match inlineData part with
      | Some blob =>
          let base64String := data blob in
          setGeneratedImage
            (Some ("data:image/png;base64," ++ template_of base64String)) ;;
          ret true
      | None => scan_parts rest
      end
  end.

Definition MissingInputError : string :=
  "Please provide a book cover and a title.".
Definition MissingCredentialError : string := "API Key is missing.".
Definition NoImageReturnedError : string :=
  "No image generated. The model might have returned text instead.".
Definition TransportError_fallback : string :=
  "Failed to generate ad. Please try again.".

(** [generateAd] (lines 54-126), run on the state [s] of the render whose
    closure it is. *)
Definition generateAd (s : AppState) : M unit :=
  match imageFile s with
  | None => setError MissingInputError
  | Some file =>
      if negb (truthy (title s)) then setError MissingInputError
      else if negb (truthy (apiKey s)) then setError MissingCredentialError
      else
        setLoading true ;;
        setError EmptyString ;;
        setGeneratedImage None ;;
        try_catch_finally
          (imagePart <- fileToGenerativePart file ;;
           let prompt := prompt (platform s) (title s) (description s) in
           response <-
             call_generateContent (request_of imagePart (platform s) prompt) ;;
           foundImage <-
             match response_parts response with
             | Some ps => scan_parts ps
             | None => ret false
             end ;;
           if negb foundImage then throw (mkError (Some NoImageReturnedError))
           else ret tt)
          (fun err =>
             emit (ConsoleError err) ;;
             setError (or_else (message err) TransportError_fallback))
          (setLoading false)
  end.

End Handlers.

(** One invocation of [generateAd] from state [s]: the state it leaves and
    the effects it performed. *)
Definition run_generateAd (env : Env) (s : AppState)
  : AppState * list Effect :=
  let '(_, s', tr) := generateAd env s s [] in (s', tr).

Definition after_generateAd (env : Env) (s : AppState) : AppState :=
  fst (run_generateAd env s).

Definition effects_of_generateAd (env : Env) (s : AppState) : list Effect :=
  snd (run_generateAd env s).

(** The Reset button's handler (line 315). *)
Definition handleReset : M unit := setGeneratedImage None.

Definition after_reset (s : AppState) : AppState :=
  let '(_, s', _) := handleReset s [] in s'.

(** ** What the component renders *)

Definition has_file (s : AppState) : bool :=
  match imageFile s with Some _ => true | None => false end.

(** The Generate button (line 245). *)
Definition button_disabled (s : AppState) : bool :=
  loading s || negb (has_file s).

(** The error region (line 267), the placeholder (line 280), the spinner
    (line 290) and the result region (line 297). *)
Definition shows_error (s : AppState) : bool := truthy (error s).
Definition shows_placeholder (s : AppState) : bool :=
  negb (truthy_opt (generatedImage s)) && negb (loading s).
Definition shows_spinner (s : AppState) : bool := loading s.
Definition shows_result (s : AppState) : bool := truthy_opt (generatedImage s).

(** The [download] attribute of the link in the result region. *)
Definition download_attribute (s : AppState) : string :=
  download_name (title s).

(** The workflow is idle when nothing is outstanding, no artifact is held
    and no error is reported, as on the first render. *)
Definition idle (s : AppState) : bool :=
  negb (shows_spinner s) && negb (shows_result s) && negb (shows_error s).

(** The pre-flight guards of lines 55 and 59 let the attempt through. *)
Definition passes_preflight (s : AppState) : bool :=
  has_file s && truthy (title s) && truthy (apiKey s).

(** ** User interaction *)

Inductive UiEvent :=
| PickFile (env : Env) (file : option File)
| TypeTitle (v : string)
| TypeDescription (v : string)
| ClickPlatform (k : nat)
| ClickGenerate (env : Env)
| ClickReset.

Definition exec (m : M unit) (s : AppState) : AppState :=
  let '(_, s', _) := m s [] in s'.

(** One event on the rendered page: a disabled button, or one that is not
    rendered, does nothing. *)
Definition ui_step (s : AppState) (ev : UiEvent) : AppState :=
  match ev with
  | PickFile env file => exec (handleImageUpload env file) s
  | TypeTitle v => exec (setTitle v) s
  | TypeDescription v => exec (setDescription v) s
  | ClickPlatform k =>
      match nth_error PLATFORMS k with
      | Some p => exec (setPlatform p) s
      | None => s
      end
  | ClickGenerate env =>
      if button_disabled s then s else after_generateAd env s
  | ClickReset => if shows_result s then after_reset s else s
  end.

Definition ui_run (s : AppState) (evs : list UiEvent) : AppState :=
  fold_left ui_step evs s.

(** The first part of a reply that carries inline data. *)
Fixpoint first_inline (ps : list Part) : option Blob :=
  match ps with
  | [] => None
  | part :: rest =>
      match inlineData part with
      | Some blob => Some blob
      | None => first_inline rest
      end
  end.

(** The data URI built on line 109. *)
Definition data_uri (blob : Blob) : string :=
  "data:image/png;base64," ++ template_of (data blob).


(** The image part and the request that [generateAd] builds in state [s]
    once the reader has delivered [url] for [file]. *)
Definition imagePart_of (file : File) (url : string) : Part :=
  mkPart None (Some (mkBlob (nth_error (split_on "," url) 1)
                            (Some (type file)))).

Definition request_for (s : AppState) (file : File) (url : string)
  : GenerateContentParameters :=
  request_of (imagePart_of file url) (platform s)
             (prompt (platform s) (title s) (description s)).

(** The state in which an attempt that passed the guards starts its
    request (lines 64-66). *)
Definition attempt_started (s : AppState) : AppState :=
  with_generatedImage None (with_error EmptyString (with_loading true s)).


(** ** Sample inputs *)

Definition cover_png : File := mkFile "cover.png" "image/png".

Definition text_part (t : string) : Part := mkPart (Some t) None.
Definition image_part (d : string) : Part :=
  mkPart None (Some (mkBlob (Some d) (Some "image/png"))).

Definition reply_with (ps : list Part) : GenerateContentResponse :=
  mkResponse (Some [mkCandidate (Some (mkContent (Some ps)))]).

(** A reader that delivers a small data URL, and a service that answers
    with the given parts. *)
Definition env_replying (ps : list Part) : Env :=
  mkEnv (fun _ => Some "data:image/png;base64,iVBORw0KGgo=")
        (fun _ => Resolved (reply_with ps)).

Definition ready_state (key t : string) : AppState :=
  with_title t (with_imageFile (Some cover_png) (initial_state key)).

(** A reply with text around two images, and a textual refusal. *)
Definition mixed_reply : list Part :=
  [text_part "Here is your ad."; image_part "QUJD";
   text_part "Enjoy."; image_part "WFla"].

Definition refusal_reply : list Part :=
  [text_part "I cannot create this image."].

(** The page after one successful attempt and the title then cleared. *)
Definition title_cleared_after_success : list UiEvent :=
  [PickFile (env_replying []) (Some cover_png);
   TypeTitle "Calm";
   ClickGenerate (env_replying [image_part "QUJD"]);
   TypeTitle EmptyString].

(** ** Notions for the rest of the component *)

(** No comma occurs in [s]. *)
Definition comma_free (s : string) : bool :=
  all_chars (fun c => negb (Ascii.eqb c ",")) s.

(** The aspect ratios of the preset table. *)
Definition ASPECT_RATIOS : list string := ["9:16"; "1:1"; "16:9"].

(** A value of [generatedImage] as line 109 writes it. *)
Definition png_data_uri (v : string) : Prop :=
  exists d, v = "data:image/png;base64," ++ d.

(** What [err.message || fallback] of line 122 evaluates to. *)
Definition reported_message (err : JsError) : string :=
  match message err with
  | Some (String c m) => String c m
  | _ => TransportError_fallback
  end.

Definition is_generate (ev : UiEvent) : bool :=
  match ev with ClickGenerate _ => true | _ => false end.

Definition is_reset (ev : UiEvent) : bool :=
  match ev with ClickReset => true | _ => false end.

(** More sample inputs: a second file, a reader that fails, a service that
    rejects. *)
Definition cover_jpg : File := mkFile "cover.jpg" "image/jpeg".

Definition env_unreadable : Env :=
  mkEnv (fun _ => None) (fun _ => Resolved (reply_with [])).

Definition env_rejecting (err : JsError) : Env :=
  mkEnv (fun _ => Some "data:image/png;base64,iVBORw0KGgo=")
        (fun _ => Rejected err).

Definition env_reading (url : string) : Env :=
  mkEnv (fun _ => Some url) (fun _ => Resolved (reply_with [])).

(** ** The download file name on every title (line 308) *)

(** A JavaScript string is a sequence of UTF-16 code units. *)
Definition code_unit : Type := N.
Definition js_string : Type := list code_unit.

(** The code units of a literal of the source. *)
Definition units (s : string) : js_string :=
  map N_of_ascii (list_ascii_of_string s).

Definition HYPHEN : code_unit := 45%N.

(** The class [\s] of ECMAScript regular expressions: the white space
    characters TAB, VT, FF, ZWNBSP and those of category Zs, and the line
    terminators LF, CR, LS and PS.  All of them are single code units. *)
Definition js_is_space (u : code_unit) : bool :=
  ((9 <=? u) && (u <=? 13)
   || (u =? 32) || (u =? 160) || (u =? 5760)
   || (8192 <=? u) && (u <=? 8202)
   || (u =? 8232) || (u =? 8233) || (u =? 8239) || (u =? 8287)
   || (u =? 12288) || (u =? 65279))%N.

(** [s.replace(/\s+/g, '-')] on code units: a maximal run of white space
    is one match and becomes one hyphen.  [in_run] tells that the previous
    code unit belonged to the match being consumed. *)
Fixpoint js_replace_spaces_from (in_run : bool) (s : js_string) : js_string :=
  match s with
  | [] => []
  | u :: r =>
      if js_is_space u
      then (if in_run then js_replace_spaces_from true r
            else HYPHEN :: js_replace_spaces_from true r)
      else u :: js_replace_spaces_from false r
  end.

Definition js_replace_spaces (s : js_string) : js_string :=
  js_replace_spaces_from false s.

Section DownloadName.

(** [String.prototype.toLowerCase], which the source calls and does not
    define: any function from strings to strings. *)
Variable js_toLowerCase : js_string -> js_string.

(** The template literal of line 308. *)
Definition js_download_name (title : js_string) : js_string :=
  (units "innerflue-ad-"
     ++ js_toLowerCase (js_replace_spaces title)
     ++ units ".png")%list.

End DownloadName.

Definition js_starts_with_space (s : js_string) : bool :=
  match s with
  | [] => false
  | u :: _ => js_is_space u
  end.

(** Replacing white space by hyphens, as the specification words it: every
    code unit that is not white space is kept, and each maximal run of
    white space is replaced by one hyphen. *)
Inductive Js_hyphenated : js_string -> js_string -> Prop :=
| JsH_end : Js_hyphenated [] []
| JsH_unit u t r :
    js_is_space u = false ->
    Js_hyphenated t r ->
    Js_hyphenated (u :: t) (u :: r)
| JsH_run w t r :
    w <> [] ->
    forallb js_is_space w = true ->
    js_starts_with_space t = false ->
    Js_hyphenated t r ->
    Js_hyphenated (w ++ t)%list (HYPHEN :: r).

(** * Properties *)

(** ** Strings *)

Lemma append_assoc (a b c : string) : (a ++ b) ++ c = a ++ (b ++ c).
Proof.
  induction a as [|x a IH]; simpl.
  - reflexivity.
  - now rewrite IH.
Qed.

Lemma truthy_true (s : string) : s <> EmptyString -> truthy s = true.
Proof. destruct s; [congruence | reflexivity]. Qed.

Lemma occurs_in_middle (before needle after : string) :
  occurs_in needle (before ++ needle ++ after).
Proof. now exists before, after. Qed.

(** ** The prompt *)

Lemma vibe_segment_described (description : string) :
  description <> EmptyString ->
  vibe_segment description
  = "The ad should convey this message/vibe: " ++ description ++ ".".
Proof.
  intros H. unfold vibe_segment. now rewrite (truthy_true _ H).
Qed.

Lemma prompt_shape (p : Platform) (title description : string) :
  prompt p title description
  = prompt_intro ++ name p ++ prompt_subject ++ title ++ prompt_context
      ++ vibe_segment description ++ prompt_tail.
Proof.
  unfold prompt, prompt_head. now rewrite !append_assoc.
Qed.

(** C1: for every preset of the fixed set, every title and every non-empty
    description, the composed instruction contains the title, the
    description and the preset's display name verbatim. *)
Theorem prompt_contains_inputs (p : Platform) (title description : string) :
  In p PLATFORMS ->
  description <> EmptyString ->
  occurs_in title (prompt p title description)
  /\ occurs_in description (prompt p title description)
  /\ occurs_in (name p) (prompt p title description).
Proof.
  intros _ Hd. rewrite prompt_shape, (vibe_segment_described _ Hd).
  repeat split.
  - exists (prompt_intro ++ name p ++ prompt_subject).
    eexists. rewrite !append_assoc. reflexivity.
  - exists (prompt_intro ++ name p ++ prompt_subject ++ title ++ prompt_context
              ++ "The ad should convey this message/vibe: ").
    exists ("." ++ prompt_tail).
    rewrite !append_assoc. reflexivity.
  - apply occurs_in_middle.
Qed.

Lemma prompt_contains_inputs_witness :
  occurs_in "Calm" (prompt PLATFORMS_0 "Calm" "quiet mornings")
  /\ occurs_in "quiet mornings" (prompt PLATFORMS_0 "Calm" "quiet mornings")
  /\ occurs_in (name PLATFORMS_0) (prompt PLATFORMS_0 "Calm" "quiet mornings").
Proof.
  apply (prompt_contains_inputs PLATFORMS_0 "Calm" "quiet mornings").
  - simpl. left. reflexivity.
  - discriminate.
Defined.

(** C2: with an empty description the composed instruction carries the
    fixed default sentence where the description segment would stand. *)
Theorem prompt_default_vibe (p : Platform) (title : string) :
  prompt p title EmptyString
  = prompt_head p title ++ DEFAULT_VIBE ++ prompt_tail
  /\ occurs_in DEFAULT_VIBE (prompt p title EmptyString)
  /\ DEFAULT_VIBE
     = "The vibe should be serene, professional, and inspiring, suitable for a high-quality journal or planner.".
Proof.
  repeat split. apply occurs_in_middle.
Qed.

(** ** The download file name *)

Lemma lower_char_plain (c : ascii) :
  is_space c = false -> plain_char (lower_char c) = true.
Proof.
  destruct c as [[] [] [] [] [] [] [] []]; vm_compute;
    intros H; solve [reflexivity | discriminate H].
Qed.

Lemma lower_char_idem (c : ascii) : lower_char (lower_char c) = lower_char c.
Proof.
  destruct c as [[] [] [] [] [] [] [] []]; vm_compute; reflexivity.
Qed.

Lemma all_chars_app (p : ascii -> bool) (a b : string) :
  all_chars p (a ++ b) = all_chars p a && all_chars p b.
Proof.
  induction a as [|x a IH]; simpl; [reflexivity|].
  now rewrite IH, andb_assoc.
Qed.

Lemma replace_spaces_from_no_space (b : bool) (s : string) :
  all_chars (fun c => negb (is_space c)) (replace_spaces_from b s) = true.
Proof.
  revert b. induction s as [|c r IH]; intros b; simpl; [reflexivity|].
  destruct (is_space c) eqn:Hc.
  - destruct b; simpl; now rewrite ?IH.
  - simpl. now rewrite Hc, IH.
Qed.

Lemma toLowerCase_plain (s : string) :
  all_chars (fun c => negb (is_space c)) s = true ->
  all_chars plain_char (toLowerCase s) = true.
Proof.
  induction s as [|c r IH]; simpl; [reflexivity|].
  intros H. apply andb_true_iff in H as [Hc Hr].
  apply negb_true_iff in Hc.
  now rewrite (lower_char_plain _ Hc), IH.
Qed.

(** The scan agrees with the worded description, whether or not it is in
    the middle of a run [w] of white space. *)
Lemma replace_spaces_from_hyphenated (s : string) :
  Hyphenated s (toLowerCase (replace_spaces_from false s))
  /\ forall w, w <> EmptyString -> all_chars is_space w = true ->
       Hyphenated (w ++ s)
                  (String "-" (toLowerCase (replace_spaces_from true s))).
Proof.
  induction s as [|c r [IHf IHt]].
  - split; [constructor|].
    intros w Hw Hall. simpl. now apply Hyph_run; [| | | constructor].
  - simpl. destruct (is_space c) eqn:Hc.
    + split.
      * apply (IHt (String c EmptyString)); [discriminate|].
        simpl. now rewrite Hc.
      * intros w Hw Hall.
        replace (w ++ String c r) with ((w ++ String c EmptyString) ++ r)
          by now rewrite append_assoc.
        apply IHt.
        -- destruct w; discriminate.
        -- rewrite all_chars_app, Hall. simpl. now rewrite Hc.
    + split.
      * simpl. now apply Hyph_char.
      * intros w Hw Hall. simpl.
        apply Hyph_run; [assumption | assumption | exact Hc |].
        now apply Hyph_char.
Qed.

(** The worded description determines the name: white space runs are
    maximal, so a title splits in one way only. *)
Lemma space_run_unique (w1 w2 t1 t2 : string) :
  all_chars is_space w1 = true -> all_chars is_space w2 = true ->
  starts_with_space t1 = false -> starts_with_space t2 = false ->
  w1 ++ t1 = w2 ++ t2 -> t1 = t2.
Proof.
  revert w2. induction w1 as [|a w1 IH]; intros [|b w2] H1 H2 S1 S2 E;
    simpl in *.
  - assumption.
  - subst t1. simpl in S1. apply andb_true_iff in H2 as [H2 _]. congruence.
  - subst t2. simpl in S2. apply andb_true_iff in H1 as [H1 _]. congruence.
  - injection E as _ E.
    apply andb_true_iff in H1 as [_ H1]. apply andb_true_iff in H2 as [_ H2].
    now apply (IH w2).
Qed.

Lemma Hyphenated_inv (t s : string) :
  Hyphenated t s ->
  match t with
  | EmptyString => s = EmptyString
  | String c r =>
      if is_space c
      then exists w t' s',
             String c r = w ++ t' /\ w <> EmptyString
             /\ all_chars is_space w = true /\ starts_with_space t' = false
             /\ Hyphenated t' s' /\ s = String "-" s'
      else exists s', Hyphenated r s' /\ s = String (lower_char c) s'
  end.
Proof.
  destruct 1 as [|c t s Hc Hts|w t s Hw Hall Hst Hts].
  - reflexivity.
  - rewrite Hc. now exists s.
  - destruct w as [|x w]; [congruence|].
    simpl in Hall |- *. apply andb_true_iff in Hall as [Hx Hall].
    rewrite Hx. exists (String x w), t, s. simpl. rewrite Hx, Hall.
    repeat split; solve [assumption | discriminate].
Qed.

Lemma Hyphenated_unique (t s1 : string) :
  Hyphenated t s1 -> forall s2, Hyphenated t s2 -> s1 = s2.
Proof.
  induction 1 as [|c t s Hc Hts IH|w t s Hw Hall Hst Hts IH];
    intros s2 H2; apply Hyphenated_inv in H2.
  - now symmetry.
  - rewrite Hc in H2. destruct H2 as (s' & H' & ->).
    f_equal. now apply IH.
  - destruct w as [|x w]; [congruence|].
    simpl in Hall, H2. apply andb_true_iff in Hall as [Hx Hall].
    rewrite Hx in H2.
    destruct H2 as (w' & t' & s' & E & Hw' & Hall' & Hst' & H' & ->).
    f_equal. apply IH.
    destruct w' as [|x' w']; [congruence|].
    simpl in Hall'. apply andb_true_iff in Hall' as [Hx' Hall'].
    simpl in E. injection E as Ex E.
    now rewrite (space_run_unique w w' t t' Hall Hall' Hst Hst' E).
Qed.

(** On titles whose code units are all below U+0100, the suggested
    download file name is the title, lower-cased and with white space
    replaced by hyphens, and it ends with [.png]. *)
Theorem download_name_from_title (s : AppState) :
  download_attribute s = "innerflue-ad-" ++ download_stem (title s) ++ ".png"
  /\ Hyphenated (title s) (download_stem (title s))
  /\ all_chars plain_char (download_stem (title s)) = true
  /\ ends_with ".png" (download_attribute s).
Proof.
  repeat split.
  - apply replace_spaces_from_hyphenated.
  - apply toLowerCase_plain, replace_spaces_from_no_space.
  - exists ("innerflue-ad-" ++ download_stem (title s)).
    unfold download_attribute, download_name. now rewrite append_assoc.
Qed.

(** ** The download file name on every title *)


(** On code units below U+0100 the class is the one of [is_space], and the
    replacement is the one of [replace_spaces]. *)
Lemma js_is_space_ascii (c : ascii) : js_is_space (N_of_ascii c) = is_space c.
Proof.
  destruct c as [[] [] [] [] [] [] [] []]; vm_compute; reflexivity.
Qed.

Lemma js_replace_spaces_from_units (b : bool) (t : string) :
  js_replace_spaces_from b (units t) = units (replace_spaces_from b t).
Proof.
  revert b. unfold units.
  induction t as [|c r IH]; intros b; simpl; [reflexivity|].
  rewrite js_is_space_ascii.
  destruct (is_space c); [destruct b|]; simpl; now rewrite IH.
Qed.



(** The worded description determines the result: runs are maximal, so a
    title splits in one way only. *)
Lemma js_space_run_unique (w1 w2 t1 t2 : js_string) :
  forallb js_is_space w1 = true -> forallb js_is_space w2 = true ->
  js_starts_with_space t1 = false -> js_starts_with_space t2 = false ->
  (w1 ++ t1 = w2 ++ t2)%list -> t1 = t2.
Proof.
  revert w2. induction w1 as [|a w1 IH]; intros [|b w2] H1 H2 S1 S2 E;
    simpl in *.
  - assumption.
  - subst t1. simpl in S1. apply andb_true_iff in H2 as [H2 H2']. congruence.
  - subst t2. simpl in S2. apply andb_true_iff in H1 as [H1 H1']. congruence.
  - injection E as Eab E.
    apply andb_true_iff in H1 as [H1' H1]. apply andb_true_iff in H2 as [H2' H2].
    now apply (IH w2).
Qed.

Lemma Js_hyphenated_inv (t r : js_string) :
  Js_hyphenated t r ->
  match t with
  | [] => r = []
  | u :: t0 =>
      if js_is_space u
      then exists w t' r',
             (u :: t0 = w ++ t')%list /\ w <> []
             /\ forallb js_is_space w = true
             /\ js_starts_with_space t' = false
             /\ Js_hyphenated t' r' /\ r = HYPHEN :: r'
      else exists r', Js_hyphenated t0 r' /\ r = u :: r'
  end.
Proof.
  destruct 1 as [|u t r Hu Htr|w t r Hw Hall Hst Htr].
  - reflexivity.
  - rewrite Hu. now exists r.
  - destruct w as [|x w]; [congruence|].
    simpl in Hall |- *. apply andb_true_iff in Hall as [Hx Hall].
    rewrite Hx. exists (x :: w), t, r. simpl. rewrite Hx, Hall.
    repeat split; solve [assumption | discriminate].
Qed.

Lemma Js_hyphenated_unique (t r1 : js_string) :
  Js_hyphenated t r1 -> forall r2, Js_hyphenated t r2 -> r1 = r2.
Proof.
  induction 1 as [|u t r Hu Htr IH|w t r Hw Hall Hst Htr IH];
    intros r2 H2; apply Js_hyphenated_inv in H2.
  - now symmetry.
  - rewrite Hu in H2. destruct H2 as (r' & H' & ->).
    f_equal. now apply IH.
  - destruct w as [|x w]; [congruence|].
    simpl in Hall, H2. apply andb_true_iff in Hall as [Hx Hall].
    rewrite Hx in H2.
    destruct H2 as (w' & t' & r' & E & Hw' & Hall' & Hst' & H' & ->).
    f_equal. apply IH.
    destruct w' as [|x' w']; [congruence|].
    simpl in Hall'. apply andb_true_iff in Hall' as [Hx' Hall'].
    simpl in E. injection E as Ex E.
    now rewrite (js_space_run_unique w w' t t' Hall Hall' Hst Hst' E).
Qed.

(** A title with an em space (U+2003) and a tab between its words. *)
Example js_replace_spaces_em_space :
  js_replace_spaces ([77; 121; 8195; 9; 66; 105; 103]%N)
  = [77; 121; 45; 66; 105; 103]%N.
Proof. reflexivity. Qed.

(** The name of the title [My  Big<TAB>Title], given what the built-in
    returns for [My-Big-Title]. *)
Example js_download_name_my_big_title (tl : js_string -> js_string) :
  tl (units "My-Big-Title") = units "my-big-title" ->
  js_download_name tl (units "My  Big" ++ [9%N] ++ units "Title")%list
  = units "innerflue-ad-my-big-title.png".
Proof.
  intros H. unfold js_download_name.
  change (js_replace_spaces (units "My  Big" ++ [9%N] ++ units "Title")%list)
    with (units "My-Big-Title").
  rewrite H. reflexivity.
Qed.

(** The name of the one-letter title U+0130, which the built-in lower-cases
    to the two code units U+0069 U+0307. *)
Example js_download_name_dotted_I (tl : js_string -> js_string) :
  tl [304%N] = [105; 775]%N ->
  js_download_name tl [304%N]
  = (units "innerflue-ad-" ++ [105; 775]%N ++ units ".png")%list.
Proof.
  intros H. unfold js_download_name.
  change (js_replace_spaces [304%N]) with [304%N].
  now rewrite H.
Qed.


(** ** Scanning the reply *)

Lemma scan_parts_spec (ps : list Part) (s : AppState) (tr : list Effect) :
  scan_parts ps s tr
  = match first_inline ps with
    | Some blob =>
        (Normal true, with_generatedImage (Some (data_uri blob)) s, tr)
    | None => (Normal false, s, tr)
    end.
Proof.
  induction ps as [|part rest IH]; simpl.
  - reflexivity.
  - destruct (inlineData part) as [blob|]; [reflexivity | exact IH].
Qed.

Lemma first_inline_skips (pre post : list Part) (part : Part) (blob : Blob) :
  Forall (fun p => inlineData p = None) pre ->
  inlineData part = Some blob ->
  first_inline (pre ++ part :: post) = Some blob.
Proof.
  intros Hpre Hpart. induction Hpre as [|p pre Hp _ IH]; simpl.
  - now rewrite Hpart.
  - now rewrite Hp.
Qed.

Lemma first_inline_none (ps : list Part) :
  Forall (fun p => inlineData p = None) ps -> first_inline ps = None.
Proof.
  induction 1 as [|p ps Hp _ IH]; simpl; [reflexivity | now rewrite Hp].
Qed.

(** ** The paths through [generateAd] *)

Ltac run_handler :=
  unfold run_generateAd, generateAd, fileToGenerativePart,
    call_generateContent, try_catch_finally, bind, setLoading, setError,
    setGeneratedImage, update, emit, ret, throw.

Lemma has_file_some (s : AppState) :
  imageFile s <> None -> exists file, imageFile s = Some file.
Proof. destruct (imageFile s) as [f|]; [now exists f | congruence]. Qed.

(** Line 55: the first guard rejects and nothing else happens. *)
Lemma run_missing_input (env : Env) (s : AppState) :
  imageFile s = None \/ title s = EmptyString ->
  run_generateAd env s = (with_error MissingInputError s, []).
Proof.
  intros [H|H]; run_handler; rewrite H.
  - reflexivity.
  - destruct (imageFile s); reflexivity.
Qed.

(** Line 59: the second guard rejects and nothing else happens. *)
Lemma run_missing_credential (env : Env) (s : AppState) :
  imageFile s <> None -> title s <> EmptyString -> apiKey s = EmptyString ->
  run_generateAd env s = (with_error MissingCredentialError s, []).
Proof.
  intros Hf Ht Hk. destruct (has_file_some s Hf) as [file Hfile].
  run_handler. now rewrite Hfile, (truthy_true _ Ht), Hk.
Qed.

(** The reader fails: the promise of line 70 is rejected. *)
Lemma run_read_failed (env : Env) (s : AppState) (file : File) :
  imageFile s = Some file -> title s <> EmptyString ->
  apiKey s <> EmptyString ->
  readAsDataURL env file = None ->
  run_generateAd env s
  = (with_loading false
       (with_error TransportError_fallback (attempt_started s)),
     [FileRead file; ConsoleError (mkError None)]).
Proof.
  intros Hfile Ht Hk Hread. run_handler.
  now rewrite Hfile, (truthy_true _ Ht), (truthy_true _ Hk), Hread.
Qed.

(** The service call itself fails. *)
Lemma run_rejected (env : Env) (s : AppState) (file : File) (url : string)
    (err : JsError) :
  imageFile s = Some file -> title s <> EmptyString ->
  apiKey s <> EmptyString ->
  readAsDataURL env file = Some url ->
  generateContent env (request_for s file url) = Rejected err ->
  run_generateAd env s
  = (with_loading false
       (with_error (or_else (message err) TransportError_fallback)
                   (attempt_started s)),
     [FileRead file; NetworkCall (request_for s file url); ConsoleError err]).
Proof.
  intros Hfile Ht Hk Hread Hnet. run_handler.
  rewrite Hfile, (truthy_true _ Ht), (truthy_true _ Hk), Hread.
  unfold request_for, imagePart_of in *. cbv beta iota.
  now rewrite Hnet.
Qed.

(** The service answers. *)
Lemma run_resolved (env : Env) (s : AppState) (file : File) (url : string)
    (response : GenerateContentResponse) :
  imageFile s = Some file -> title s <> EmptyString ->
  apiKey s <> EmptyString ->
  readAsDataURL env file = Some url ->
  generateContent env (request_for s file url) = Resolved response ->
  run_generateAd env s
  = match match response_parts response with
          | Some ps => first_inline ps
          | None => None
          end with
    | Some blob =>
        (with_loading false
           (with_generatedImage (Some (data_uri blob)) (attempt_started s)),
         [FileRead file; NetworkCall (request_for s file url)])
    | None =>
        (with_loading false
           (with_error NoImageReturnedError (attempt_started s)),
         [FileRead file; NetworkCall (request_for s file url);
          ConsoleError (mkError (Some NoImageReturnedError))])
    end.
Proof.
  intros Hfile Ht Hk Hread Hnet. run_handler.
  rewrite Hfile, (truthy_true _ Ht), (truthy_true _ Hk), Hread.
  unfold request_for, imagePart_of in *. cbv beta iota.
  rewrite Hnet.
  destruct (response_parts response) as [ps|]; [|reflexivity].
  cbv beta iota delta [negb]. rewrite scan_parts_spec.
  destruct (first_inline ps) as [blob|]; reflexivity.
Qed.

(** Case analysis over the six ways an invocation can go. *)
Ltac by_paths env s :=
  let file := fresh "file" in
  let url := fresh "url" in
  let response := fresh "response" in
  let err := fresh "err" in
  let Hfile := fresh "Hfile" in
  let Ht := fresh "Ht" in
  let Hk := fresh "Hk" in
  let Hread := fresh "Hread" in
  let Hnet := fresh "Hnet" in
  unfold after_generateAd, effects_of_generateAd;
  destruct (imageFile s) as [file|] eqn:Hfile;
  [ destruct (string_dec (title s) EmptyString) as [Ht|Ht];
    [ rewrite (run_missing_input env s (or_intror Ht))
    | destruct (string_dec (apiKey s) EmptyString) as [Hk|Hk];
      [ rewrite (run_missing_credential env s) by congruence
      | destruct (readAsDataURL env file) as [url|] eqn:Hread;
        [ destruct (generateContent env (request_for s file url))
            as [response|err] eqn:Hnet;
          [ rewrite (run_resolved env s file url response
                       Hfile Ht Hk Hread Hnet)
          | rewrite (run_rejected env s file url err
                       Hfile Ht Hk Hread Hnet) ]
        | rewrite (run_read_failed env s file Hfile Ht Hk Hread) ] ] ]
  | rewrite (run_missing_input env s (or_introl Hfile)) ].


(** Whatever instruction text leaves with a network call is the template
    filled in from the preset, the title and the description. *)
Lemma prompts_sent_are_composed (env : Env) (s : AppState) (p : string) :
  In p (prompts_sent (effects_of_generateAd env s)) ->
  p = prompt (platform s) (title s) (description s).
Proof.
  by_paths env s;
    try match goal with
      | |- context [match ?x with Some _ => _ | None => _ end] => destruct x
      end;
    simpl; intuition congruence.
Qed.

(** ** Pre-flight validation *)

(** C3: with no image file or with an empty title, invoking generation
    reports the missing-input message and makes no network call. *)
Theorem missing_input_rejected (env : Env) (s : AppState) :
  imageFile s = None \/ title s = EmptyString ->
  error (after_generateAd env s) = MissingInputError
  /\ network_calls (effects_of_generateAd env s) = []
  /\ after_generateAd env s = with_error MissingInputError s
  /\ MissingInputError = "Please provide a book cover and a title.".
Proof.
  intros H. unfold after_generateAd, effects_of_generateAd.
  rewrite (run_missing_input env s H). repeat split.
Qed.

Lemma missing_input_rejected_witness :
  (error (after_generateAd (env_replying [])
            (with_title "Calm" (initial_state "key")))
   = MissingInputError
   /\ network_calls (effects_of_generateAd (env_replying [])
                       (with_title "Calm" (initial_state "key"))) = [])
  /\ error (after_generateAd (env_replying []) (ready_state "key" EmptyString))
     = MissingInputError.
Proof.
  split.
  - split;
      apply (missing_input_rejected (env_replying [])
               (with_title "Calm" (initial_state "key")));
      left; reflexivity.
  - apply (missing_input_rejected (env_replying [])
             (ready_state "key" EmptyString)).
    right. reflexivity.
Defined.

(** C4: with an image file and a non-empty title but an empty credential,
    invoking generation reports the missing-credential message and makes no
    network call. *)
Theorem missing_credential_rejected (env : Env) (s : AppState) :
  imageFile s <> None ->
  title s <> EmptyString ->
  apiKey s = EmptyString ->
  error (after_generateAd env s) = MissingCredentialError
  /\ network_calls (effects_of_generateAd env s) = []
  /\ after_generateAd env s = with_error MissingCredentialError s
  /\ MissingCredentialError = "API Key is missing.".
Proof.
  intros Hf Ht Hk. unfold after_generateAd, effects_of_generateAd.
  rewrite (run_missing_credential env s Hf Ht Hk). repeat split.
Qed.

Lemma missing_credential_rejected_witness :
  error (after_generateAd (env_replying []) (ready_state EmptyString "Calm"))
  = MissingCredentialError
  /\ network_calls (effects_of_generateAd (env_replying [])
                      (ready_state EmptyString "Calm")) = [].
Proof.
  split;
    apply (missing_credential_rejected (env_replying [])
             (ready_state EmptyString "Calm"));
    solve [discriminate | reflexivity].
Defined.

(** C10: when the inputs are invalid and the credential is missing as
    well, the missing-input message is the one reported: the input guard
    comes before the credential guard. *)
Theorem missing_input_reported_first (env : Env) (s : AppState) :
  imageFile s = None \/ title s = EmptyString ->
  apiKey s = EmptyString ->
  error (after_generateAd env s) = MissingInputError
  /\ error (after_generateAd env s) <> MissingCredentialError.
Proof.
  intros H _. unfold after_generateAd.
  rewrite (run_missing_input env s H). split; [reflexivity | discriminate].
Qed.

Lemma missing_input_reported_first_witness :
  error (after_generateAd (env_replying []) (initial_state EmptyString))
  = MissingInputError
  /\ error (after_generateAd (env_replying []) (initial_state EmptyString))
     <> MissingCredentialError.
Proof.
  apply (missing_input_reported_first (env_replying [])
           (initial_state EmptyString)).
  - left. reflexivity.
  - reflexivity.
Defined.

(** ** Resolving the reply *)

(** C5: when the reply's parts contain a part with inline data, the
    attempt succeeds with the artifact built from the first such part,
    whatever precedes or follows it, and Reset then discards the artifact
    and leaves the workflow idle. *)
Theorem first_inline_part_resolved (env : Env) (s : AppState) (file : File)
    (url : string) (response : GenerateContentResponse)
    (pre post : list Part) (part : Part) (blob : Blob) :
  imageFile s = Some file ->
  title s <> EmptyString ->
  apiKey s <> EmptyString ->
  readAsDataURL env file = Some url ->
  generateContent env (request_for s file url) = Resolved response ->
  response_parts response = Some (pre ++ part :: post)%list ->
  Forall (fun p => inlineData p = None) pre ->
  inlineData part = Some blob ->
  let s' := after_generateAd env s in
  generatedImage s' = Some ("data:image/png;base64," ++ template_of (data blob))
  /\ error s' = EmptyString
  /\ loading s' = false
  /\ shows_result s' = true
  /\ ui_step s' ClickReset = after_reset s'
  /\ generatedImage (after_reset s') = None
  /\ idle (after_reset s') = true.
Proof.
  intros Hfile Ht Hk Hread Hnet Hparts Hpre Hpart s'. subst s'.
  unfold after_generateAd.
  rewrite (run_resolved env s file url response Hfile Ht Hk Hread Hnet).
  rewrite Hparts, (first_inline_skips pre post part blob Hpre Hpart).
  repeat split.
Qed.

Lemma first_inline_part_resolved_witness :
  generatedImage (after_generateAd (env_replying mixed_reply)
                                   (ready_state "key" "Calm"))
  = Some "data:image/png;base64,QUJD"
  /\ error (after_generateAd (env_replying mixed_reply)
                             (ready_state "key" "Calm")) = EmptyString
  /\ loading (after_generateAd (env_replying mixed_reply)
                               (ready_state "key" "Calm")) = false
  /\ shows_result (after_generateAd (env_replying mixed_reply)
                                    (ready_state "key" "Calm")) = true
  /\ ui_step (after_generateAd (env_replying mixed_reply)
                               (ready_state "key" "Calm")) ClickReset
     = after_reset (after_generateAd (env_replying mixed_reply)
                                     (ready_state "key" "Calm"))
  /\ generatedImage
       (after_reset (after_generateAd (env_replying mixed_reply)
                                      (ready_state "key" "Calm"))) = None
  /\ idle (after_reset (after_generateAd (env_replying mixed_reply)
                                         (ready_state "key" "Calm"))) = true.
Proof.
  apply (first_inline_part_resolved (env_replying mixed_reply)
           (ready_state "key" "Calm") cover_png
           "data:image/png;base64,iVBORw0KGgo="
           (reply_with mixed_reply)
           [text_part "Here is your ad."]
           [text_part "Enjoy."; image_part "WFla"]
           (image_part "QUJD")
           (mkBlob (Some "QUJD") (Some "image/png"))).
  - reflexivity.
  - discriminate.
  - discriminate.
  - reflexivity.
  - reflexivity.
  - reflexivity.
  - repeat constructor.
  - reflexivity.
Defined.

(** C6: when no part of the reply carries inline data, or the reply has no
    list of parts, the attempt ends failed with the no-image message. *)
Theorem no_inline_part_fails (env : Env) (s : AppState) (file : File)
    (url : string) (response : GenerateContentResponse) :
  imageFile s = Some file ->
  title s <> EmptyString ->
  apiKey s <> EmptyString ->
  readAsDataURL env file = Some url ->
  generateContent env (request_for s file url) = Resolved response ->
  (forall ps, response_parts response = Some ps ->
              Forall (fun p => inlineData p = None) ps) ->
  let s' := after_generateAd env s in
  error s' = NoImageReturnedError
  /\ NoImageReturnedError
     = "No image generated. The model might have returned text instead."
  /\ generatedImage s' = None
  /\ loading s' = false
  /\ shows_error s' = true
  /\ shows_result s' = false.
Proof.
  intros Hfile Ht Hk Hread Hnet Hnone s'. subst s'.
  unfold after_generateAd.
  rewrite (run_resolved env s file url response Hfile Ht Hk Hread Hnet).
  destruct (response_parts response) as [ps|].
  - rewrite (first_inline_none ps (Hnone ps eq_refl)). repeat split.
  - repeat split.
Qed.

Lemma no_inline_part_fails_witness :
  error (after_generateAd (env_replying refusal_reply)
                          (ready_state "key" "Calm"))
  = NoImageReturnedError
  /\ NoImageReturnedError
     = "No image generated. The model might have returned text instead."
  /\ generatedImage (after_generateAd (env_replying refusal_reply)
                                      (ready_state "key" "Calm")) = None
  /\ loading (after_generateAd (env_replying refusal_reply)
                               (ready_state "key" "Calm")) = false
  /\ shows_error (after_generateAd (env_replying refusal_reply)
                                   (ready_state "key" "Calm")) = true
  /\ shows_result (after_generateAd (env_replying refusal_reply)
                                    (ready_state "key" "Calm")) = false.
Proof.
  apply (no_inline_part_fails (env_replying refusal_reply)
           (ready_state "key" "Calm") cover_png
           "data:image/png;base64,iVBORw0KGgo="
           (reply_with refusal_reply)).
  - reflexivity.
  - discriminate.
  - discriminate.
  - reflexivity.
  - reflexivity.
  - intros ps Hps. injection Hps as <-. repeat constructor.
Defined.

(** ** Image and error *)

(** After a successful attempt the title is cleared and the button pressed
    again: the second invocation stops at the first guard, which writes the
    error and leaves the image of the first in place. *)
Lemma image_and_error_together :
  button_disabled (ui_run (initial_state "key") title_cleared_after_success)
  = false
  /\ generatedImage
       (after_generateAd (env_replying [])
          (ui_run (initial_state "key") title_cleared_after_success))
     = Some "data:image/png;base64,QUJD"
  /\ error
       (after_generateAd (env_replying [])
          (ui_run (initial_state "key") title_cleared_after_success))
     = MissingInputError.
Proof. vm_compute. repeat split. Qed.


Lemma passes_preflight_iff (s : AppState) :
  passes_preflight s = true
  <-> imageFile s <> None /\ title s <> EmptyString
      /\ apiKey s <> EmptyString.
Proof.
  unfold passes_preflight, has_file.
  destruct (imageFile s), (title s), (apiKey s); simpl;
    split; intros H; try discriminate H; try reflexivity;
    try (repeat split; discriminate);
    destruct H as (H1 & H2 & H3); congruence.
Qed.




(** ** Determinism of the instruction *)

(** C9: the composed instruction is a function of the preset, the title and
    the description alone: two invocations that agree on the three send the
    same instruction, whatever else differs in their states and
    environments. *)
Theorem prompt_depends_on_triple_only (env1 env2 : Env) (s1 s2 : AppState)
    (p1 p2 : string) :
  platform s1 = platform s2 ->
  title s1 = title s2 ->
  description s1 = description s2 ->
  In p1 (prompts_sent (effects_of_generateAd env1 s1)) ->
  In p2 (prompts_sent (effects_of_generateAd env2 s2)) ->
  p1 = p2
  /\ p1 = prompt (platform s1) (title s1) (description s1).
Proof.
  intros Hp Ht Hd H1 H2.
  apply prompts_sent_are_composed in H1, H2.
  rewrite H1, H2, Hp, Ht, Hd. split; reflexivity.
Qed.

Lemma prompt_depends_on_triple_only_witness :
  prompt PLATFORMS_0 "Calm" EmptyString = prompt PLATFORMS_0 "Calm" EmptyString
  /\ prompt PLATFORMS_0 "Calm" EmptyString
     = prompt (platform (ready_state "key" "Calm"))
              (title (ready_state "key" "Calm"))
              (description (ready_state "key" "Calm")).
Proof.
  apply (prompt_depends_on_triple_only
           (env_replying [image_part "QUJD"])
           (env_replying [text_part "No."])
           (ready_state "key" "Calm")
           (with_error "stale" (ready_state "another key" "Calm"))).
  - reflexivity.
  - reflexivity.
  - reflexivity.
  - vm_compute. left. reflexivity.
  - vm_compute. left. reflexivity.
Defined.

(** * Further properties of the component *)

(** ** Reading the file *)

Lemma split_on_comma_free (payload : string) :
  comma_free payload = true -> split_on "," payload = [payload].
Proof.
  induction payload as [|c r IH]; simpl; [reflexivity|].
  intros H. apply andb_true_iff in H as [Hc Hr].
  apply negb_true_iff in Hc. rewrite Hc, (IH Hr). reflexivity.
Qed.

Lemma split_on_header (header rest : string) :
  comma_free header = true ->
  split_on "," (header ++ String "," rest) = header :: split_on "," rest.
Proof.
  induction header as [|c r IH]; simpl; [reflexivity|].
  intros H. apply andb_true_iff in H as [Hc Hr].
  apply negb_true_iff in Hc. rewrite Hc, (IH Hr). reflexivity.
Qed.

(** [fileToGenerativePart] hands on what follows the comma of the data URL
    as the data, and the file's type as the media type; it writes no state
    and its only effect is the read. *)
Theorem fileToGenerativePart_payload (env : Env) (file : File)
    (header payload : string) (s : AppState) (tr : list Effect) :
  comma_free header = true ->
  comma_free payload = true ->
  readAsDataURL env file = Some (header ++ "," ++ payload) ->
  fileToGenerativePart env file s tr
  = (Normal (mkPart None (Some (mkBlob (Some payload) (Some (type file))))),
     s, (tr ++ [FileRead file])%list).
Proof.
  intros Hh Hp Hread.
  unfold fileToGenerativePart, bind, emit, ret. rewrite Hread.
  change (header ++ "," ++ payload) with (header ++ String "," payload).
  now rewrite (split_on_header _ _ Hh), (split_on_comma_free _ Hp).
Qed.

Lemma fileToGenerativePart_payload_witness :
  fileToGenerativePart (env_replying []) cover_png (initial_state "key") []
  = (Normal (mkPart None (Some (mkBlob (Some "iVBORw0KGgo=")
                                       (Some "image/png")))),
     initial_state "key", [FileRead cover_png]).
Proof.
  apply (fileToGenerativePart_payload (env_replying []) cover_png
           "data:image/png;base64" "iVBORw0KGgo=" (initial_state "key") []).
  - reflexivity.
  - reflexivity.
  - reflexivity.
Defined.

(** A reader result without a comma gives a part whose data is undefined,
    and the request is sent with it all the same. *)
Theorem data_undefined_without_comma (env : Env) (s : AppState) (file : File)
    (url : string) :
  imageFile s = Some file ->
  title s <> EmptyString ->
  apiKey s <> EmptyString ->
  readAsDataURL env file = Some url ->
  comma_free url = true ->
  imagePart_of file url = mkPart None (Some (mkBlob None (Some (type file))))
  /\ network_calls (effects_of_generateAd env s)
     = [request_of (mkPart None (Some (mkBlob None (Some (type file)))))
                   (platform s)
                   (prompt (platform s) (title s) (description s))].
Proof.
  intros Hfile Ht Hk Hread Hfree.
  assert (Hpart : imagePart_of file url
                  = mkPart None (Some (mkBlob None (Some (type file))))).
  { unfold imagePart_of. now rewrite (split_on_comma_free _ Hfree). }
  split; [exact Hpart|].
  unfold effects_of_generateAd.
  destruct (generateContent env (request_for s file url))
    as [response|err] eqn:Hnet.
  - rewrite (run_resolved env s file url response Hfile Ht Hk Hread Hnet).
    unfold request_for. rewrite Hpart.
    destruct (match response_parts response with
              | Some ps => first_inline ps
              | None => None
              end); reflexivity.
  - rewrite (run_rejected env s file url err Hfile Ht Hk Hread Hnet).
    unfold request_for. rewrite Hpart. reflexivity.
Qed.

Lemma data_undefined_without_comma_witness :
  imagePart_of cover_png "not a data URL"
  = mkPart None (Some (mkBlob None (Some (type cover_png))))
  /\ network_calls (effects_of_generateAd (env_reading "not a data URL")
                      (ready_state "key" "Calm"))
     = [request_of (mkPart None (Some (mkBlob None (Some (type cover_png)))))
                   (platform (ready_state "key" "Calm"))
                   (prompt (platform (ready_state "key" "Calm"))
                           (title (ready_state "key" "Calm"))
                           (description (ready_state "key" "Calm")))].
Proof.
  apply (data_undefined_without_comma (env_reading "not a data URL")
           (ready_state "key" "Calm") cover_png "not a data URL").
  - reflexivity.
  - discriminate.
  - discriminate.
  - reflexivity.
  - reflexivity.
Defined.

(** ** Failures of the attempt *)

(** When the reader fails, the attempt ends with the fallback message, no
    image, the busy flag down, and without any network call. *)
Theorem read_failure_reported (env : Env) (s : AppState) (file : File) :
  imageFile s = Some file ->
  title s <> EmptyString ->
  apiKey s <> EmptyString ->
  readAsDataURL env file = None ->
  error (after_generateAd env s) = "Failed to generate ad. Please try again."
  /\ generatedImage (after_generateAd env s) = None
  /\ loading (after_generateAd env s) = false
  /\ network_calls (effects_of_generateAd env s) = [].
Proof.
  intros Hfile Ht Hk Hread. unfold after_generateAd, effects_of_generateAd.
  rewrite (run_read_failed env s file Hfile Ht Hk Hread). repeat split.
Qed.

Lemma read_failure_reported_witness :
  error (after_generateAd env_unreadable (ready_state "key" "Calm"))
  = "Failed to generate ad. Please try again."
  /\ generatedImage (after_generateAd env_unreadable (ready_state "key" "Calm"))
     = None
  /\ loading (after_generateAd env_unreadable (ready_state "key" "Calm"))
     = false
  /\ network_calls (effects_of_generateAd env_unreadable
                      (ready_state "key" "Calm")) = [].
Proof.
  apply (read_failure_reported env_unreadable (ready_state "key" "Calm")
           cover_png).
  - reflexivity.
  - discriminate.
  - discriminate.
  - reflexivity.
Defined.

(** When the service call fails, the message of the thrown value is
    reported if it has a non-empty one and the fallback message otherwise;
    no image is held, the busy flag is down, and the one call was made. *)
Theorem service_failure_reported (env : Env) (s : AppState) (file : File)
    (url : string) (err : JsError) :
  imageFile s = Some file ->
  title s <> EmptyString ->
  apiKey s <> EmptyString ->
  readAsDataURL env file = Some url ->
  generateContent env (request_for s file url) = Rejected err ->
  error (after_generateAd env s) = reported_message err
  /\ error (after_generateAd env s) <> EmptyString
  /\ generatedImage (after_generateAd env s) = None
  /\ loading (after_generateAd env s) = false
  /\ network_calls (effects_of_generateAd env s) = [request_for s file url].
Proof.
  intros Hfile Ht Hk Hread Hnet. unfold after_generateAd, effects_of_generateAd.
  rewrite (run_rejected env s file url err Hfile Ht Hk Hread Hnet).
  unfold reported_message. simpl.
  destruct (message err) as [[|c m]|]; simpl; repeat split; discriminate.
Qed.

Lemma service_failure_reported_witness :
  error (after_generateAd (env_rejecting (mkError (Some "quota exceeded")))
                          (ready_state "key" "Calm"))
  = reported_message (mkError (Some "quota exceeded"))
  /\ error (after_generateAd (env_rejecting (mkError (Some "quota exceeded")))
                             (ready_state "key" "Calm")) <> EmptyString
  /\ generatedImage
       (after_generateAd (env_rejecting (mkError (Some "quota exceeded")))
                         (ready_state "key" "Calm")) = None
  /\ loading
       (after_generateAd (env_rejecting (mkError (Some "quota exceeded")))
                         (ready_state "key" "Calm")) = false
  /\ network_calls
       (effects_of_generateAd (env_rejecting (mkError (Some "quota exceeded")))
                              (ready_state "key" "Calm"))
     = [request_for (ready_state "key" "Calm") cover_png
                    "data:image/png;base64,iVBORw0KGgo="].
Proof.
  apply (service_failure_reported
           (env_rejecting (mkError (Some "quota exceeded")))
           (ready_state "key" "Calm") cover_png
           "data:image/png;base64,iVBORw0KGgo="
           (mkError (Some "quota exceeded"))).
  - reflexivity.
  - discriminate.
  - discriminate.
  - reflexivity.
  - reflexivity.
Defined.

(** ** What one invocation does and leaves alone *)

Ltac split_reply :=
  try match goal with
    | |- context [match match response_parts ?r with
                        | Some _ => _
                        | None => _
                        end with Some _ => _ | None => _ end] =>
        destruct (match response_parts r with
                  | Some ps => first_inline ps
                  | None => None
                  end)
    end.

(** An invocation makes one network call when an image file is present,
    title and credential are non-empty and the reader delivers, and none
    otherwise. *)
Theorem network_call_condition (env : Env) (s : AppState) :
  network_calls (effects_of_generateAd env s)
  = match imageFile s with
    | Some file =>
        if truthy (title s) && truthy (apiKey s)
        then match readAsDataURL env file with
             | Some url => [request_for s file url]
             | None => []
             end
        else []
    | None => []
    end.
Proof.
  by_paths env s; split_reply;
    rewrite ?Ht, ?Hk, ?(truthy_true _ Ht), ?(truthy_true _ Hk);
    simpl; rewrite ?andb_false_r; reflexivity.
Qed.

(** An invocation never touches the credential or the form: title,
    description, preset, file and preview are as before, whichever way it
    ends. *)
Theorem generateAd_keeps_inputs (env : Env) (s : AppState) :
  apiKey (after_generateAd env s) = apiKey s
  /\ title (after_generateAd env s) = title s
  /\ description (after_generateAd env s) = description s
  /\ platform (after_generateAd env s) = platform s
  /\ imageFile (after_generateAd env s) = imageFile s
  /\ imagePreview (after_generateAd env s) = imagePreview s.
Proof.
  by_paths env s; split_reply; simpl; repeat split; congruence.
Qed.

Lemma after_generateAd_frame (env : Env) (s : AppState) :
  apiKey (after_generateAd env s) = apiKey s
  /\ platform (after_generateAd env s) = platform s
  /\ imageFile (after_generateAd env s) = imageFile s.
Proof.
  by_paths env s; split_reply; simpl; repeat split; congruence.
Qed.

(** Once past the guards, the busy flag is down again when the invocation
    is over, on success and on every failure, so the button is enabled
    again. *)
Theorem busy_flag_released (env : Env) (s : AppState) :
  passes_preflight s = true ->
  loading (after_generateAd env s) = false
  /\ button_disabled (after_generateAd env s) = false.
Proof.
  intros H. apply passes_preflight_iff in H as (Hf & Ht' & Hk').
  unfold button_disabled, has_file.
  by_paths env s; split_reply; simpl; rewrite ?Hfile; try congruence;
    repeat split; reflexivity.
Qed.

Lemma busy_flag_released_witness :
  loading (after_generateAd (env_rejecting (mkError None))
                            (with_loading true (ready_state "key" "Calm")))
  = false
  /\ button_disabled
       (after_generateAd (env_rejecting (mkError None))
                         (with_loading true (ready_state "key" "Calm")))
     = false.
Proof.
  apply (busy_flag_released (env_rejecting (mkError None))
           (with_loading true (ready_state "key" "Calm"))).
  reflexivity.
Defined.

(** An attempt that passes the guards keeps nothing of an earlier one: the
    state it leaves and the effects it has are the same whatever image,
    error and busy flag were there before. *)
Theorem passing_attempt_forgets_prior (env : Env) (s : AppState)
    (g : option string) (e : string) (l : bool) :
  passes_preflight s = true ->
  run_generateAd env (with_loading l (with_error e (with_generatedImage g s)))
  = run_generateAd env s.
Proof.
  intros H. apply passes_preflight_iff in H as (Hf & Ht & Hk).
  destruct (imageFile s) as [file|] eqn:Hfile; [|congruence].
  set (s0 := with_loading l (with_error e (with_generatedImage g s))).
  assert (Hfile0 : imageFile s0 = Some file) by exact Hfile.
  assert (Ht0 : title s0 <> EmptyString) by exact Ht.
  assert (Hk0 : apiKey s0 <> EmptyString) by exact Hk.
  destruct (readAsDataURL env file) as [url|] eqn:Hread.
  - assert (Hreq : request_for s0 file url = request_for s file url)
      by reflexivity.
    destruct (generateContent env (request_for s file url))
      as [response|err] eqn:Hnet.
    + rewrite (run_resolved env s file url response Hfile Ht Hk Hread Hnet).
      rewrite <- Hreq in Hnet.
      rewrite (run_resolved env s0 file url response Hfile0 Ht0 Hk0 Hread Hnet).
      reflexivity.
    + rewrite (run_rejected env s file url err Hfile Ht Hk Hread Hnet).
      rewrite <- Hreq in Hnet.
      rewrite (run_rejected env s0 file url err Hfile0 Ht0 Hk0 Hread Hnet).
      reflexivity.
  - rewrite (run_read_failed env s file Hfile Ht Hk Hread).
    rewrite (run_read_failed env s0 file Hfile0 Ht0 Hk0 Hread).
    reflexivity.
Qed.

Lemma passing_attempt_forgets_prior_witness :
  run_generateAd (env_replying refusal_reply)
    (with_loading false
       (with_error "stale"
          (with_generatedImage (Some "data:image/png;base64,QUJD")
             (ready_state "key" "Calm"))))
  = run_generateAd (env_replying refusal_reply) (ready_state "key" "Calm").
Proof.
  apply (passing_attempt_forgets_prior (env_replying refusal_reply)
           (ready_state "key" "Calm")
           (Some "data:image/png;base64,QUJD") "stale" false).
  reflexivity.
Defined.

(** The request of an invocation names the fixed model, asks for the aspect
    ratio of the selected preset, which is one of the three of the table,
    and carries two parts: the image with the file's media type, then the
    instruction text. *)
Theorem request_shape (env : Env) (s : AppState)
    (p : GenerateContentParameters) :
  In (platform s) PLATFORMS ->
  In p (network_calls (effects_of_generateAd env s)) ->
  model p = "gemini-2.5-flash-image"
  /\ config_imageConfig_aspectRatio p = ratio (platform s)
  /\ In (config_imageConfig_aspectRatio p) ASPECT_RATIOS
  /\ map text (contents_parts p)
     = [None; Some (prompt (platform s) (title s) (description s))]
  /\ exists blob,
       map inlineData (contents_parts p) = [Some blob; None]
       /\ mimeType blob = option_map type (imageFile s).
Proof.
  intros Hpl. by_paths env s; split_reply; simpl; intros Hin;
    try contradiction; destruct Hin as [<-|[]]; simpl;
    (repeat split;
     [ unfold PLATFORMS in Hpl; simpl in Hpl;
       destruct Hpl as [<-|[<-|[<-|[]]]]; simpl; auto
     | eexists; split; reflexivity ]).
Qed.

Lemma request_shape_witness :
  model (request_for (ready_state "key" "Calm") cover_png
                     "data:image/png;base64,iVBORw0KGgo=")
  = "gemini-2.5-flash-image"
  /\ config_imageConfig_aspectRatio
       (request_for (ready_state "key" "Calm") cover_png
                    "data:image/png;base64,iVBORw0KGgo=")
     = ratio (platform (ready_state "key" "Calm"))
  /\ In (config_imageConfig_aspectRatio
           (request_for (ready_state "key" "Calm") cover_png
                        "data:image/png;base64,iVBORw0KGgo="))
        ASPECT_RATIOS
  /\ map text (contents_parts
                 (request_for (ready_state "key" "Calm") cover_png
                              "data:image/png;base64,iVBORw0KGgo="))
     = [None; Some (prompt (platform (ready_state "key" "Calm"))
                           (title (ready_state "key" "Calm"))
                           (description (ready_state "key" "Calm")))]
  /\ exists blob,
       map inlineData
           (contents_parts
              (request_for (ready_state "key" "Calm") cover_png
                           "data:image/png;base64,iVBORw0KGgo="))
       = [Some blob; None]
       /\ mimeType blob = option_map type (imageFile (ready_state "key" "Calm")).
Proof.
  apply (request_shape (env_replying mixed_reply) (ready_state "key" "Calm")).
  - left. reflexivity.
  - left. reflexivity.
Defined.

(** ** Invariants of the page *)

Lemma ui_run_invariant (P : AppState -> Prop) :
  (forall s ev, P s -> P (ui_step s ev)) ->
  forall evs s, P s -> P (ui_run s evs).
Proof.
  intros Hstep evs. unfold ui_run.
  induction evs as [|ev evs IH]; intros s Hs; simpl.
  - exact Hs.
  - apply IH, Hstep, Hs.
Qed.

Lemma ui_step_apiKey (s : AppState) (ev : UiEvent) :
  apiKey (ui_step s ev) = apiKey s.
Proof.
  destruct ev as [env [f|]| | |k|env|]; simpl; try reflexivity.
  - destruct (nth_error PLATFORMS k); reflexivity.
  - destruct (button_disabled s); [reflexivity|].
    apply after_generateAd_frame.
  - destruct (shows_result s); reflexivity.
Qed.

Lemma ui_step_imageFile (s : AppState) (ev : UiEvent) :
  imageFile (ui_step s ev) = imageFile s
  \/ exists f, imageFile (ui_step s ev) = Some f.
Proof.
  destruct ev as [env [f|]| | |k|env|]; simpl; try (left; reflexivity).
  - right. now exists f.
  - left. destruct (nth_error PLATFORMS k); reflexivity.
  - left. destruct (button_disabled s); [reflexivity|].
    apply after_generateAd_frame.
  - left. destruct (shows_result s); reflexivity.
Qed.

(** Nothing on the page changes the credential: it is, after any
    interaction, what it was. *)
Theorem credential_never_changes (s : AppState) (evs : list UiEvent) :
  apiKey (ui_run s evs) = apiKey s.
Proof.
  apply (ui_run_invariant (fun s' => apiKey s' = apiKey s)); [|reflexivity].
  intros s' ev H. now rewrite ui_step_apiKey.
Qed.

Lemma without_credential (env : Env) (s : AppState) :
  apiKey s = EmptyString ->
  generatedImage (after_generateAd env s) = generatedImage s
  /\ network_calls (effects_of_generateAd env s) = [].
Proof.
  intros Hkey. by_paths env s; try congruence; split; reflexivity.
Qed.

(** A page started without a credential never holds a generated image and
    never makes a network call, whatever the user does. *)
Theorem no_credential_no_result (evs : list UiEvent) (env : Env) :
  generatedImage (ui_run (initial_state EmptyString) evs) = None
  /\ network_calls
       (effects_of_generateAd env (ui_run (initial_state EmptyString) evs))
     = [].
Proof.
  assert (Hinv : apiKey (ui_run (initial_state EmptyString) evs) = EmptyString
                 /\ generatedImage (ui_run (initial_state EmptyString) evs)
                    = None).
  { apply (ui_run_invariant
             (fun s => apiKey s = EmptyString /\ generatedImage s = None));
      [|split; reflexivity].
    intros s ev [Hk Hg]. split; [now rewrite ui_step_apiKey|].
    destruct ev as [env' [f|]| | |k|env'|]; simpl; try exact Hg.
    - destruct (nth_error PLATFORMS k); exact Hg.
    - destruct (button_disabled s); [exact Hg|].
      now rewrite (proj1 (without_credential env' s Hk)).
    - destruct (shows_result s); [reflexivity | exact Hg]. }
  destruct Hinv as [Hk Hg]. split; [exact Hg|].
  apply without_credential, Hk.
Qed.

(** The preset selected on the page is always one of the table. *)
Theorem preset_always_from_table (env_API_KEY : string)
    (evs : list UiEvent) :
  In (platform (ui_run (initial_state env_API_KEY) evs)) PLATFORMS.
Proof.
  apply (ui_run_invariant (fun s => In (platform s) PLATFORMS));
    [|left; reflexivity].
  intros s ev H.
  destruct ev as [env [f|]| | |k|env|]; try exact H; unfold ui_step.
  - destruct (nth_error PLATFORMS k) as [p|] eqn:Hk;
      [exact (nth_error_In PLATFORMS k Hk) | exact H].
  - destruct (button_disabled s); [exact H|].
    now rewrite (proj1 (proj2 (after_generateAd_frame env s))).
  - destruct (shows_result s); exact H.
Qed.

(** Whatever image the page holds is a PNG data URI as line 109 builds
    it. *)
Theorem held_image_is_png_data_uri (env_API_KEY : string)
    (evs : list UiEvent) (v : string) :
  generatedImage (ui_run (initial_state env_API_KEY) evs) = Some v ->
  png_data_uri v.
Proof.
  revert v.
  apply (ui_run_invariant
           (fun s => forall v, generatedImage s = Some v -> png_data_uri v));
    [|discriminate].
  intros s ev H v.
  destruct ev as [env [f|]| | |k|env|]; simpl; try apply H.
  - destruct (nth_error PLATFORMS k); apply H.
  - destruct (button_disabled s); [apply H|].
    by_paths env s; split_reply; simpl; try apply H; try discriminate.
    intros E. injection E as <-. now eexists.
  - destruct (shows_result s); [discriminate | apply H].
Qed.

Lemma held_image_is_png_data_uri_witness :
  png_data_uri "data:image/png;base64,QUJD".
Proof.
  apply (held_image_is_png_data_uri "key" title_cleared_after_success).
  reflexivity.
Defined.

(** A cover once chosen is never removed: no interaction brings the page
    back to having no file. *)
Theorem cover_never_removed (s : AppState) (evs : list UiEvent) :
  has_file s = true -> has_file (ui_run s evs) = true.
Proof.
  apply (ui_run_invariant (fun s' => has_file s' = true)).
  intros s' ev H. unfold has_file in *.
  destruct (ui_step_imageFile s' ev) as [E|[f E]]; rewrite E;
    [exact H | reflexivity].
Qed.

Lemma cover_never_removed_witness :
  has_file (ui_run (ready_state "key" "Calm")
              [PickFile env_unreadable None; ClickReset;
               ClickGenerate env_unreadable; TypeTitle EmptyString])
  = true.
Proof.
  apply (cover_never_removed (ready_state "key" "Calm")).
  reflexivity.
Defined.

(** Only Generate writes the error, and only Generate and Reset write the
    image: typing, choosing a preset or a file, and Reset leave a reported
    error where it is. *)
Theorem only_generate_writes_error (s : AppState) (ev : UiEvent) :
  is_generate ev = false ->
  error (ui_step s ev) = error s
  /\ generatedImage (ui_step s ev)
     = if is_reset ev && shows_result s then None else generatedImage s.
Proof.
  destruct ev as [env [f|]| | |k|env|]; simpl; intros H;
    try discriminate H; try (split; reflexivity).
  - destruct (nth_error PLATFORMS k); split; reflexivity.
  - destruct (shows_result s); split; reflexivity.
Qed.

Lemma only_generate_writes_error_witness :
  error (ui_step (after_generateAd (env_replying refusal_reply)
                                   (ready_state "key" "Calm"))
                 (TypeTitle "Calmer"))
  = error (after_generateAd (env_replying refusal_reply)
                            (ready_state "key" "Calm"))
  /\ generatedImage
       (ui_step (after_generateAd (env_replying refusal_reply)
                                  (ready_state "key" "Calm"))
                (TypeTitle "Calmer"))
     = if is_reset (TypeTitle "Calmer")
          && shows_result (after_generateAd (env_replying refusal_reply)
                                            (ready_state "key" "Calm"))
       then None
       else generatedImage (after_generateAd (env_replying refusal_reply)
                                             (ready_state "key" "Calm")).
Proof.
  apply (only_generate_writes_error
           (after_generateAd (env_replying refusal_reply)
                             (ready_state "key" "Calm"))
           (TypeTitle "Calmer")).
  reflexivity.
Defined.

(** ** Upload, then generate *)

(** After a cover has been chosen, the next invocation that passes the
    guards reads that file and sends its data, whatever file was there
    before; dismissing the chooser without a file changes nothing. *)
Theorem uploaded_cover_is_sent (env0 env : Env) (s : AppState) (f : File)
    (url : string) :
  title s <> EmptyString ->
  apiKey s <> EmptyString ->
  readAsDataURL env f = Some url ->
  network_calls
    (effects_of_generateAd env (exec (handleImageUpload env0 (Some f)) s))
  = [request_for s f url]
  /\ imagePreview (exec (handleImageUpload env0 (Some f)) s)
     = readAsDataURL env0 f
  /\ exec (handleImageUpload env0 None) s = s.
Proof.
  intros Ht Hk Hread.
  set (s1 := exec (handleImageUpload env0 (Some f)) s).
  assert (Hfile1 : imageFile s1 = Some f) by reflexivity.
  assert (Ht1 : title s1 <> EmptyString) by exact Ht.
  assert (Hk1 : apiKey s1 <> EmptyString) by exact Hk.
  assert (Hreq : request_for s1 f url = request_for s f url) by reflexivity.
  repeat split. unfold effects_of_generateAd.
  destruct (generateContent env (request_for s1 f url))
    as [response|err] eqn:Hnet.
  - rewrite (run_resolved env s1 f url response Hfile1 Ht1 Hk1 Hread Hnet).
    rewrite Hreq. split_reply; reflexivity.
  - rewrite (run_rejected env s1 f url err Hfile1 Ht1 Hk1 Hread Hnet).
    rewrite Hreq. reflexivity.
Qed.

Lemma uploaded_cover_is_sent_witness :
  network_calls
    (effects_of_generateAd (env_replying mixed_reply)
       (exec (handleImageUpload env_unreadable (Some cover_jpg))
             (ready_state "key" "Calm")))
  = [request_for (ready_state "key" "Calm") cover_jpg
                 "data:image/png;base64,iVBORw0KGgo="]
  /\ imagePreview (exec (handleImageUpload env_unreadable (Some cover_jpg))
                        (ready_state "key" "Calm"))
     = readAsDataURL env_unreadable cover_jpg
  /\ exec (handleImageUpload env_unreadable None) (ready_state "key" "Calm")
     = ready_state "key" "Calm".
Proof.
  apply (uploaded_cover_is_sent env_unreadable (env_replying mixed_reply)
           (ready_state "key" "Calm") cover_jpg
           "data:image/png;base64,iVBORw0KGgo=").
  - discriminate.
  - discriminate.
  - reflexivity.
Defined.

(** ** More on the download file name *)

Lemma is_space_lower_char (c : ascii) : is_space (lower_char c) = is_space c.
Proof.
  destruct c as [[] [] [] [] [] [] [] []]; vm_compute; reflexivity.
Qed.

Lemma toLowerCase_idem (s : string) :
  toLowerCase (toLowerCase s) = toLowerCase s.
Proof.
  induction s as [|c r IH]; simpl; [reflexivity|].
  now rewrite lower_char_idem, IH.
Qed.

Lemma replace_spaces_from_lower (b : bool) (s : string) :
  replace_spaces_from b (toLowerCase s)
  = toLowerCase (replace_spaces_from b s).
Proof.
  revert b. induction s as [|c r IH]; intros b; simpl; [reflexivity|].
  rewrite is_space_lower_char.
  destruct (is_space c); [destruct b|]; simpl; now rewrite IH.
Qed.

Lemma replace_spaces_from_plain (b : bool) (s : string) :
  all_chars plain_char s = true -> replace_spaces_from b s = s.
Proof.
  revert b. induction s as [|c r IH]; intros b; simpl; [reflexivity|].
  intros H. apply andb_true_iff in H as [Hc Hr].
  unfold plain_char in Hc. apply andb_true_iff in Hc as [Hc _].
  apply negb_true_iff in Hc. now rewrite Hc, IH.
Qed.

Lemma toLowerCase_of_plain (s : string) :
  all_chars plain_char s = true -> toLowerCase s = s.
Proof.
  induction s as [|c r IH]; simpl; [reflexivity|].
  intros H. apply andb_true_iff in H as [Hc Hr].
  unfold plain_char in Hc. apply andb_true_iff in Hc as [_ Hc].
  apply negb_true_iff in Hc. unfold lower_char. now rewrite Hc, IH.
Qed.

Lemma download_stem_plain (title : string) :
  all_chars plain_char (download_stem title) = true.
Proof. apply toLowerCase_plain, replace_spaces_from_no_space. Qed.

Lemma replace_spaces_from_length (b : bool) (s : string) :
  (String.length (replace_spaces_from b s) <= String.length s)%nat.
Proof.
  revert b. induction s as [|c r IH]; intros b; simpl; [lia|].
  pose proof (IH true) as IHt. pose proof (IH false) as IHf.
  destruct (is_space c); [destruct b|]; simpl; lia.
Qed.

Lemma toLowerCase_length (s : string) :
  String.length (toLowerCase s) = String.length s.
Proof.
  induction s as [|c r IH]; simpl; [reflexivity | now rewrite IH].
Qed.

(** A title without white space and without upper-case letters is used in
    the file name as it is. *)
Theorem plain_title_kept (s : AppState) :
  all_chars plain_char (title s) = true ->
  download_attribute s = "innerflue-ad-" ++ title s ++ ".png".
Proof.
  intros H. unfold download_attribute, download_name, download_stem,
    replace_spaces.
  now rewrite (replace_spaces_from_plain _ _ H), (toLowerCase_of_plain _ H).
Qed.

Lemma plain_title_kept_witness :
  download_attribute (ready_state "key" "calm-mornings")
  = "innerflue-ad-" ++ title (ready_state "key" "calm-mornings") ++ ".png".
Proof.
  apply (plain_title_kept (ready_state "key" "calm-mornings")).
  reflexivity.
Defined.

(** The file name does not tell titles apart that differ in letter case
    only; computing the name part again from itself changes nothing; and
    the name part is never longer than the title. *)
Theorem download_name_normalises (title : string) :
  download_name (toLowerCase title) = download_name title
  /\ download_stem (download_stem title) = download_stem title
  /\ (String.length (download_stem title) <= String.length title)%nat.
Proof.
  repeat split.
  - unfold download_name, download_stem, replace_spaces.
    now rewrite replace_spaces_from_lower, toLowerCase_idem.
  - pose proof (download_stem_plain title) as H.
    unfold download_stem at 1. unfold replace_spaces.
    now rewrite (replace_spaces_from_plain _ _ H), (toLowerCase_of_plain _ H).
  - unfold download_stem, replace_spaces.
    rewrite toLowerCase_length. apply replace_spaces_from_length.
Qed.
